(** * winmenu: a binding of user32.dll's CreateMenu and InsertMenuItemW

    A shallow embedding of [winmenu.go].  The file follows the source from
    top to bottom: the named integer types, the four constant blocks, the
    [MenuItemInfo] structure (its declaration, from which [unsafe.Sizeof] is
    computed, and its values), and the two exported functions, written in a
    small state-and-panic monad over a world made of the Go heap, the
    operating system behind [syscall.LazyProc.Call], and the trace of what the
    binding itself did. *)

From Stdlib Require Import ZArith List Lia Bool FunctionalExtensionality.
From stdpp Require Import base decidable functions list numbers strings.

Local Open Scope Z_scope.

(** ** Machine integers *)

Module GoInt.

(** Windows ports of the Go toolchain. *)
Inductive GOARCH := GOARCH_386 | GOARCH_amd64 | GOARCH_arm | GOARCH_arm64.

(** Size in bytes of a pointer (and of [uintptr], [int], a register). *)
Definition PtrSize (a : GOARCH) : Z :=
  match a with
  | GOARCH_386 | GOARCH_arm => 4
  | GOARCH_amd64 | GOARCH_arm64 => 8
  end.

(** Conversion to an unsigned integer type of [bits] bits wraps around. *)
Definition wrap (bits z : Z) : Z := z mod 2 ^ bits.

Definition uint32 (z : Z) : Z := wrap 32 z.
Definition uintptr (a : GOARCH) (z : Z) : Z := wrap (8 * PtrSize a) z.

Definition is_uint32 (z : Z) : Prop := 0 <= z < 2 ^ 32.
Definition is_uintptr (a : GOARCH) (z : Z) : Prop := 0 <= z < 2 ^ (8 * PtrSize a).

End GoInt.
Export GoInt.

(** ** Named types and constants *)

(** [type HMenu uintptr], [type HBitmap uintptr], [type MaskFlag uint32],
    [type TypeFlag uint32], [type StateFlag uint32]: values are integers. *)
Definition HMenu := Z.
Definition HBitmap := Z.
Definition MaskFlag := Z.
Definition TypeFlag := Z.
Definition StateFlag := Z.

Definition MIIM_BITMAP : MaskFlag := 0x00000080.
Definition MIIM_CHECKMARKS : MaskFlag := 0x00000008.
Definition MIIM_DATA : MaskFlag := 0x00000020.
Definition MIIM_FTYPE : MaskFlag := 0x00000100.
Definition MIIM_ID : MaskFlag := 0x00000002.
Definition MIIM_STATE : MaskFlag := 0x00000001.
Definition MIIM_STRING : MaskFlag := 0x00000040.
Definition MIIM_SUBMENU : MaskFlag := 0x00000004.
Definition MIIM_TYPE : MaskFlag := 0x00000010.

Definition MFT_BITMAP : TypeFlag := 0x00000004.
Definition MFT_MENUBARBREAK : TypeFlag := 0x00000020.
Definition MFT_MENUBREAK : TypeFlag := 0x00000040.
Definition MFT_OWNERDRAW : TypeFlag := 0x00000100.
Definition MFT_RADIOCHECK : TypeFlag := 0x00000200.
Definition MFT_RIGHTORDER : TypeFlag := 0x00002000.
Definition MFT_SEPARATOR : TypeFlag := 0x00000800.
Definition MFT_STRING : TypeFlag := 0x00000000.

Definition MFS_CHECKED : StateFlag := 0x00000008.
Definition MFS_DEFAULT : StateFlag := 0x00001000.
Definition MFS_DISABLED : StateFlag := 0x00000003.
Definition MFS_ENABLED : StateFlag := 0x00000000.
Definition MFS_GRAYED : StateFlag := 0x00000003.
Definition MFS_HILITE : StateFlag := 0x00000080.
Definition MFS_UNCHECKED : StateFlag := 0x00000000.
Definition MFS_UNHILITE : StateFlag := 0x00000000.

(** The state-flag block, in declaration order. *)
Definition StateFlag_constants : list (string * StateFlag) :=
  [ ("MFS_CHECKED", MFS_CHECKED); ("MFS_DEFAULT", MFS_DEFAULT);
    ("MFS_DISABLED", MFS_DISABLED); ("MFS_ENABLED", MFS_ENABLED);
    ("MFS_GRAYED", MFS_GRAYED); ("MFS_HILITE", MFS_HILITE);
    ("MFS_UNCHECKED", MFS_UNCHECKED); ("MFS_UNHILITE", MFS_UNHILITE) ]%string.

Definition HBMMENU_MBAR_CLOSE : HBitmap := 5.
Definition HBMMENU_MBAR_CLOSE_D : HBitmap := 6.
Definition HBMMENU_MBAR_MINIMIZE : HBitmap := 3.
Definition HBMMENU_MBAR_MINIMIZE_D : HBitmap := 7.
Definition HBMMENU_MBAR_RESTORE : HBitmap := 2.
Definition HBMMENU_POPUP_CLOSE : HBitmap := 8.
Definition HBMMENU_POPUP_MAXIMIZE : HBitmap := 10.
Definition HBMMENU_POPUP_MINIMIZE : HBitmap := 11.
Definition HBMMENU_POPUP_RESTORE : HBitmap := 9.
Definition HBMMENU_SYSTEM : HBitmap := 1.

(** What a reserved bitmap handle draws, as the comment on each constant of
    the block says: where the glyph sits, which glyph, and whether it is the
    disabled variant. *)
Inductive Place := MenuBar | Popup | Anywhere.
Inductive Glyph := CloseButton | MinimizeButton | MaximizeButton | RestoreButton | SystemIcon.

Record Sentinel := {
  s_name : string;
  s_value : HBitmap;
  s_place : Place;
  s_glyph : Glyph;
  s_disabled : bool
}.

#[global] Instance Place_eq_dec : EqDecision Place.
Proof. solve_decision. Defined.

#[global] Instance Glyph_eq_dec : EqDecision Glyph.
Proof. solve_decision. Defined.

#[global] Instance Sentinel_eq_dec : EqDecision Sentinel.
Proof. solve_decision. Defined.

(** The [HBitmap] constant block, in declaration order.  HBMMENU_CALLBACK is
    commented out in the source and therefore not part of it. *)
Definition HBitmap_constants : list Sentinel :=
  [ {| s_name := "HBMMENU_MBAR_CLOSE"; s_value := HBMMENU_MBAR_CLOSE;
       s_place := MenuBar; s_glyph := CloseButton; s_disabled := false |};
    {| s_name := "HBMMENU_MBAR_CLOSE_D"; s_value := HBMMENU_MBAR_CLOSE_D;
       s_place := MenuBar; s_glyph := CloseButton; s_disabled := true |};
    {| s_name := "HBMMENU_MBAR_MINIMIZE"; s_value := HBMMENU_MBAR_MINIMIZE;
       s_place := MenuBar; s_glyph := MinimizeButton; s_disabled := false |};
    {| s_name := "HBMMENU_MBAR_MINIMIZE_D"; s_value := HBMMENU_MBAR_MINIMIZE_D;
       s_place := MenuBar; s_glyph := MinimizeButton; s_disabled := true |};
    {| s_name := "HBMMENU_MBAR_RESTORE"; s_value := HBMMENU_MBAR_RESTORE;
       s_place := MenuBar; s_glyph := RestoreButton; s_disabled := false |};
    {| s_name := "HBMMENU_POPUP_CLOSE"; s_value := HBMMENU_POPUP_CLOSE;
       s_place := Popup; s_glyph := CloseButton; s_disabled := false |};
    {| s_name := "HBMMENU_POPUP_MAXIMIZE"; s_value := HBMMENU_POPUP_MAXIMIZE;
       s_place := Popup; s_glyph := MaximizeButton; s_disabled := false |};
    {| s_name := "HBMMENU_POPUP_MINIMIZE"; s_value := HBMMENU_POPUP_MINIMIZE;
       s_place := Popup; s_glyph := MinimizeButton; s_disabled := false |};
    {| s_name := "HBMMENU_POPUP_RESTORE"; s_value := HBMMENU_POPUP_RESTORE;
       s_place := Popup; s_glyph := RestoreButton; s_disabled := false |};
    {| s_name := "HBMMENU_SYSTEM"; s_value := HBMMENU_SYSTEM;
       s_place := Anywhere; s_glyph := SystemIcon; s_disabled := false |} ]%string.

(** ** The MenuItemInfo structure *)

(** The Go types that occur in the declaration. *)
Inductive GoType :=
| TUint16
| TUint32
| TUint64
| TUintptr
| TPointer (elem : GoType)
| TNamed (name : string) (underlying : GoType).

Record FieldDecl := { f_name : string; f_type : GoType }.

Definition T_HMenu : GoType := TNamed "HMenu" TUintptr.
Definition T_HBitmap : GoType := TNamed "HBitmap" TUintptr.
Definition T_MaskFlag : GoType := TNamed "MaskFlag" TUint32.
Definition T_TypeFlag : GoType := TNamed "TypeFlag" TUint32.
Definition T_StateFlag : GoType := TNamed "StateFlag" TUint32.

(** [type MenuItemInfo struct { ... }], field by field. *)
Definition MenuItemInfo_decl : list FieldDecl :=
  [ {| f_name := "cbSize"; f_type := TUint32 |};
    {| f_name := "fMask"; f_type := T_MaskFlag |};
    {| f_name := "fType"; f_type := T_TypeFlag |};
    {| f_name := "fState"; f_type := T_StateFlag |};
    {| f_name := "wID"; f_type := TUint32 |};
    {| f_name := "hSubMenu"; f_type := T_HMenu |};
    {| f_name := "hbmpChecked"; f_type := T_HBitmap |};
    {| f_name := "hbmpUnchecked"; f_type := T_HBitmap |};
    {| f_name := "dwItemData"; f_type := TPointer TUint64 |};
    {| f_name := "dwTypeData"; f_type := TPointer TUint16 |};
    {| f_name := "cch"; f_type := TUint32 |};
    {| f_name := "hbmpItem"; f_type := T_HBitmap |} ]%string.

(** *** Layout: what [unsafe.Sizeof] computes

    The gc toolchain lays a struct out in declaration order.  A scalar is
    aligned to its size, capped at the register size [w] (which is also the
    pointer size); each field starts at the next multiple of its alignment;
    the struct is padded at the end to its largest field alignment. *)
Module Layout.

Inductive Width := Fixed (bytes : Z) | PointerWidth.

Fixpoint width_of (t : GoType) : Width :=
  match t with
  | TUint16 => Fixed 2
  | TUint32 => Fixed 4
  | TUint64 => Fixed 8
  | TUintptr => PointerWidth
  | TPointer _ => PointerWidth
  | TNamed _ u => width_of u
  end.

Definition bytes_of (w : Z) (x : Width) : Z :=
  match x with Fixed n => n | PointerWidth => w end.

Definition Sizeof (w : Z) (t : GoType) : Z := bytes_of w (width_of t).
Definition Alignof (w : Z) (t : GoType) : Z := Z.min (Sizeof w t) w.

(** [RoundUp o r = (o + r - 1) &^ (r - 1)], for [r] a power of two. *)
Definition RoundUp (o r : Z) : Z := Z.ldiff (o + r - 1) (r - 1).

(** Offsets of the fields, starting at offset [o]; the second component is
    the offset just past the last field. *)
Fixpoint place_fields (w : Z) (fs : list FieldDecl) (o : Z) : list (string * Z) * Z :=
  match fs with
  | [] => ([], o)
  | f :: rest =>
      let at_ := RoundUp o (Alignof w (f_type f)) in
      let '(offs, e) := place_fields w rest (at_ + Sizeof w (f_type f)) in
      ((f_name f, at_) :: offs, e)
  end.

Definition max_align (w : Z) (fs : list FieldDecl) : Z :=
  fold_left (fun m f => Z.max m (Alignof w (f_type f))) fs 1.

Definition Offsetsof (w : Z) (fs : list FieldDecl) : list (string * Z) :=
  fst (place_fields w fs 0).

Definition Sizeof_struct (w : Z) (fs : list FieldDecl) : Z :=
  RoundUp (snd (place_fields w fs 0)) (max_align w fs).

End Layout.

(** *** Values *)

(** A Go pointer to a [MenuItemInfo] is nil or refers to a live one. *)
Definition loc := positive.
Inductive Pointer := Nil | Ref (l : loc).

(** [uintptr(unsafe.Pointer(p))]: the address, 0 for nil. *)
Definition uintptr_of_Pointer (p : Pointer) : Z :=
  match p with Nil => 0 | Ref l => Z.pos l end.

Record MenuItemInfo := {
  cbSize : Z;
  fMask : MaskFlag;
  fType : TypeFlag;
  fState : StateFlag;
  wID : Z;
  hSubMenu : HMenu;
  hbmpChecked : HBitmap;
  hbmpUnchecked : HBitmap;
  dwItemData : Z;  (* *uint64, as an address *)
  dwTypeData : Z;  (* *uint16, as an address *)
  cch : Z;
  hbmpItem : HBitmap
}.

(** [p.cbSize = v] on the pointee. *)
Definition set_cbSize (v : Z) (mi : MenuItemInfo) : MenuItemInfo :=
  {| cbSize := v; fMask := fMask mi; fType := fType mi; fState := fState mi;
     wID := wID mi; hSubMenu := hSubMenu mi; hbmpChecked := hbmpChecked mi;
     hbmpUnchecked := hbmpUnchecked mi; dwItemData := dwItemData mi;
     dwTypeData := dwTypeData mi; cch := cch mi; hbmpItem := hbmpItem mi |}.

(** The fields of a descriptor other than [cbSize], in declaration order. *)
Definition other_fields (mi : MenuItemInfo) : list Z :=
  [ fMask mi; fType mi; fState mi; wID mi; hSubMenu mi; hbmpChecked mi;
    hbmpUnchecked mi; dwItemData mi; dwTypeData mi; cch mi; hbmpItem mi ].

(** ** The world the binding runs in *)

(** [procCreateMenu] and [procInsertMenuItem]: lazily resolved user32.dll
    procedures. *)
Inductive Proc := procCreateMenu | procInsertMenuItem.

Definition moduser32 : string := "user32.dll".
Definition proc_name (p : Proc) : string :=
  match p with
  | procCreateMenu => "CreateMenu"
  | procInsertMenuItem => "InsertMenuItemW"
  end.

(** What the binding itself does, in program order: a store to a field of a
    descriptor, a dispatch to an operating-system entry point. *)
Inductive Event :=
| EvStore (l : loc) (field : string) (v : Z)
| EvCall (p : Proc) (args : list Z).

Inductive RuntimeError := NilPointerDereference.

(** The three results of [LazyProc.Call], and what the callee left behind:
    it is handed addresses, so it may have written to memory. *)
Record SysRet (OS : Type) := {
  r1 : Z;
  r2 : Z;
  lastErr : Z;
  mem_after : loc -> MenuItemInfo;
  os_after : OS
}.
Arguments r1 {OS}.
Arguments r2 {OS}.
Arguments lastErr {OS}.
Arguments mem_after {OS}.
Arguments os_after {OS}.

Record World (OS : Type) := {
  heap : loc -> MenuItemInfo;
  os : OS;
  trace : list Event
}.
Arguments heap {OS}.
Arguments os {OS}.
Arguments trace {OS}.

(** A statement either completes with a value or panics. *)
Inductive Outcome (S A : Type) :=
| Returned (a : A) (s : S)
| Panicked (e : RuntimeError) (s : S).
Arguments Returned {S A}.
Arguments Panicked {S A}.

Definition M (S A : Type) : Type := S -> Outcome S A.

#[global] Instance M_ret {S} : MRet (M S) := fun A a s => Returned a s.
#[global] Instance M_bind {S} : MBind (M S) := fun A B k m s =>
  match m s with
  | Returned a s' => k a s'
  | Panicked e s' => Panicked e s'
  end.

Definition value_of {S A} (o : Outcome S A) : option A :=
  match o with Returned a _ => Some a | Panicked _ _ => None end.

Definition state_of {S A} (o : Outcome S A) : S :=
  match o with Returned _ s => s | Panicked _ s => s end.

(** ** The two exported functions *)

Section Binding.

(** The build target. *)
Variable arch : GOARCH.

(** The operating system: its state, and what a resolved procedure does
    when called with [args] while memory is [mem].  Both procedures are
    exports of every user32.dll, so their lazy resolution is taken to
    succeed. *)
Variable OS : Type.
Variable sys : Proc -> list Z -> (loc -> MenuItemInfo) -> OS -> SysRet OS.

(** [lpmi.cbSize = v]: dereferences [lpmi]. *)
Definition store_cbSize (lpmi : Pointer) (v : Z) : M (World OS) unit := fun w =>
  match lpmi with
  | Nil => Panicked NilPointerDereference w
  | Ref l =>
      Returned tt {| heap := <[l := set_cbSize v (heap w l)]> (heap w);
                     os := os w;
                     trace := trace w ++ [EvStore l "cbSize" v] |}
  end.

(** [p.Call(args...)]. *)
Definition Call (p : Proc) (args : list Z) : M (World OS) (Z * Z * Z) := fun w =>
  let r := sys p args (heap w) (os w) in
  Returned (r1 r, r2 r, lastErr r)
           {| heap := mem_after r; os := os_after r;
              trace := trace w ++ [EvCall p args] |}.

(** [unsafe.Sizeof] of the pointee of [lpmi]: a constant of the build,
    the pointer is not dereferenced to compute it. *)
Definition Sizeof_MenuItemInfo : Z :=
  Layout.Sizeof_struct (PtrSize arch) MenuItemInfo_decl.

Definition CreateMenu : M (World OS) (HMenu * bool) :=
  '(ret, _, _) ← Call procCreateMenu [];
  mret (ret, bool_decide (ret ≠ 0)).

Definition InsertMenuItem (hMenu : HMenu) (item : Z) (fByPosition : bool)
    (lpmi : Pointer) : M (World OS) bool :=
  let byPos := if fByPosition then 1 else 0 in
  _ ← store_cbSize lpmi (uint32 Sizeof_MenuItemInfo);
  '(ret, _, _) ← Call procInsertMenuItem
                   [uintptr arch hMenu; uintptr arch item; uintptr arch byPos;
                    uintptr_of_Pointer lpmi];
  mret (bool_decide (ret ≠ 0)).

End Binding.

Arguments store_cbSize {OS}.
Arguments Call {OS}.
Arguments CreateMenu {OS}.
Arguments InsertMenuItem arch {OS}.

(** A sample operating system for running the binding: its state counts the
    menus it handed out; CreateMenu returns a fresh non-zero handle until
    [limit] menus exist and 0 after that; InsertMenuItemW checks the size
    stamp of the descriptor it is pointed to, as the real one does, and leaves
    memory alone.  The second result and the error code carry information the
    binding never looks at. *)
Module SampleOS.

Definition limit : Z := 2.

Definition sys (cb : Z) (err : Z) (p : Proc) (args : list Z)
    (mem : loc -> MenuItemInfo) (n : Z) : SysRet Z :=
  match p with
  | procCreateMenu =>
      if n <? limit
      then {| r1 := 0x10000 + n; r2 := 0; lastErr := 0; mem_after := mem; os_after := n + 1 |}
      else {| r1 := 0; r2 := 0; lastErr := err; mem_after := mem; os_after := n |}
  | procInsertMenuItem =>
      match args with
      | [h; _; _; Z.pos l] =>
          if (cbSize (mem l) =? cb) && (0x10000 <=? h) && (h <? 0x10000 + n)
          then {| r1 := 1; r2 := 0; lastErr := 0; mem_after := mem; os_after := n |}
          else {| r1 := 0; r2 := 0; lastErr := err; mem_after := mem; os_after := n |}
      | _ => {| r1 := 0; r2 := 0; lastErr := err; mem_after := mem; os_after := n |}
      end
  end.

Definition blank : MenuItemInfo :=
  {| cbSize := 0; fMask := 0; fType := 0; fState := 0; wID := 0; hSubMenu := 0;
     hbmpChecked := 0; hbmpUnchecked := 0; dwItemData := 0; dwTypeData := 0;
     cch := 0; hbmpItem := 0 |}.

(** A descriptor for a checked string item with command id 7. *)
Definition item7 : MenuItemInfo :=
  {| cbSize := 0; fMask := Z.lor MIIM_ID (Z.lor MIIM_STRING MIIM_STATE);
     fType := MFT_STRING; fState := MFS_CHECKED; wID := 7; hSubMenu := 0;
     hbmpChecked := 0; hbmpUnchecked := 0; dwItemData := 0; dwTypeData := 4096;
     cch := 4; hbmpItem := 0 |}.

Definition world (n : Z) : World Z :=
  {| heap := <[1%positive := item7]> (fun _ => blank); os := n; trace := [] |}.

End SampleOS.

(** An operating system that keeps a record of what reaches it: its state
    is the list of the calls it received, procedure and arguments, oldest
    first.  It hands out the handle 0x10000, accepts every insertion and
    leaves memory alone. *)
Module RecordingOS.

Definition sys (p : Proc) (args : list Z) (mem : loc -> MenuItemInfo)
    (received : list (Proc * list Z)) : SysRet (list (Proc * list Z)) :=
  {| r1 := match p with procCreateMenu => 0x10000 | procInsertMenuItem => 1 end;
     r2 := 0; lastErr := 0; mem_after := mem;
     os_after := received ++ [(p, args)] |}.

Definition world : World (list (Proc * list Z)) :=
  {| heap := fun _ => SampleOS.item7; os := []; trace := [] |}.

End RecordingOS.

(** The reserved bitmap handles as the specification lists them: the close,
    minimize and restore buttons for the menu bar and for the popup, and the
    system icon. *)
Definition sentinels_in_spec : list (Place * Glyph) :=
  [ (MenuBar, CloseButton); (MenuBar, MinimizeButton); (MenuBar, RestoreButton);
    (Popup, CloseButton); (Popup, MinimizeButton); (Popup, RestoreButton);
    (Anywhere, SystemIcon) ].

Definition place_and_glyph (s : Sentinel) : Place * Glyph := (s_place s, s_glyph s).

(** The claim of the specification about the block, read generously (a
    disabled variant counts as the button it disables): the glyphs exposed are
    the seven listed, no more and no fewer. *)
Definition exposes_exactly (listed : list (Place * Glyph)) : Prop :=
  forall pg, pg ∈ map place_and_glyph HBitmap_constants <-> pg ∈ listed.

(** The constants of the block that are not one of the listed glyphs in its
    plain variant. *)
Definition beyond (listed : list (Place * Glyph)) : list Sentinel :=
  filter (fun s => place_and_glyph s ∉ listed \/ s_disabled s = true) HBitmap_constants.

(** Two operating systems that return the same first result from every call;
    the second result and the error code may differ. *)
Definition same_r1 {OS} (sysA sysB : Proc -> list Z -> (loc -> MenuItemInfo) -> OS -> SysRet OS) : Prop :=
  forall p args mem o, r1 (sysA p args mem o) = r1 (sysB p args mem o).

(** Two operating systems that differ at most in the second result and in
    the error code of their calls: first result, memory and state afterwards
    are the same. *)
Definition same_but_error {OS} (sysA sysB : Proc -> list Z -> (loc -> MenuItemInfo) -> OS -> SysRet OS) : Prop :=
  forall p args mem o,
    r1 (sysA p args mem o) = r1 (sysB p args mem o)
    /\ mem_after (sysA p args mem o) = mem_after (sysB p args mem o)
    /\ os_after (sysA p args mem o) = os_after (sysB p args mem o).

(** ** Flag words *)

(** The mask-flag block and the type-flag block, in declaration order. *)
Definition MaskFlag_constants : list (string * MaskFlag) :=
  [ ("MIIM_BITMAP", MIIM_BITMAP); ("MIIM_CHECKMARKS", MIIM_CHECKMARKS);
    ("MIIM_DATA", MIIM_DATA); ("MIIM_FTYPE", MIIM_FTYPE); ("MIIM_ID", MIIM_ID);
    ("MIIM_STATE", MIIM_STATE); ("MIIM_STRING", MIIM_STRING);
    ("MIIM_SUBMENU", MIIM_SUBMENU); ("MIIM_TYPE", MIIM_TYPE) ]%string.

Definition TypeFlag_constants : list (string * TypeFlag) :=
  [ ("MFT_BITMAP", MFT_BITMAP); ("MFT_MENUBARBREAK", MFT_MENUBARBREAK);
    ("MFT_MENUBREAK", MFT_MENUBREAK); ("MFT_OWNERDRAW", MFT_OWNERDRAW);
    ("MFT_RADIOCHECK", MFT_RADIOCHECK); ("MFT_RIGHTORDER", MFT_RIGHTORDER);
    ("MFT_SEPARATOR", MFT_SEPARATOR); ("MFT_STRING", MFT_STRING) ]%string.

(** "This member can be one or more of the following values": a flag word is
    the bitwise or of the chosen constants, [a | b | ...]; a flag is looked
    for with [word & flag != 0]. *)
Definition flag_word (chosen : list Z) : Z := foldr Z.lor 0 chosen.
Definition has_flag (word flag : Z) : bool := negb (Z.land word flag =? 0).

(** Flags that share no bit: the and of two of them is the flag itself when
    they are the same and 0 when they are not. *)
Definition disjoint_bits (flags : list Z) : Prop :=
  Forall (fun f => Forall (fun g => Z.land g f = if decide (g = f) then f else 0) flags)
         flags.

(** ** Callers *)

(** A caller of the package: what it does next may depend on what the
    calls so far returned. *)
Inductive Client :=
| Stop
| ThenCreateMenu (k : HMenu -> bool -> Client)
| ThenInsertMenuItem (hMenu : HMenu) (item : Z) (fByPosition : bool)
    (lpmi : Pointer) (k : bool -> Client).

Fixpoint run_client {OS} (arch : GOARCH)
    (sys : Proc -> list Z -> (loc -> MenuItemInfo) -> OS -> SysRet OS)
    (c : Client) : M (World OS) unit :=
  match c with
  | Stop => mret tt
  | ThenCreateMenu k =>
      '(hMenu, ok) ← CreateMenu sys; run_client arch sys (k hMenu ok)
  | ThenInsertMenuItem hMenu item fByPosition lpmi k =>
      ok ← InsertMenuItem arch sys hMenu item fByPosition lpmi;
      run_client arch sys (k ok)
  end.

(** The traces a caller can leave: a sequence of CreateMenu calls and of
    stamp-then-InsertMenuItemW pairs on one descriptor, with the by-position
    argument 0 or 1. *)
Inductive BindingTrace (arch : GOARCH) : list Event -> Prop :=
| bt_nil : BindingTrace arch []
| bt_create tr :
    BindingTrace arch tr ->
    BindingTrace arch (EvCall procCreateMenu [] :: tr)
| bt_insert l (a0 a1 : Z) (b : bool) tr :
    BindingTrace arch tr ->
    BindingTrace arch
      (EvStore l "cbSize" (Sizeof_MenuItemInfo arch)
       :: EvCall procInsertMenuItem [a0; a1; if b then 1 else 0; Z.pos l] :: tr).

(** How a run of a caller goes, call by call, told without the binding's
    code: from memory [mem] and operating-system state [o] the caller's calls
    make the binding do [evs], and the run ends as [e] in memory [mem'] and
    state [o'].  CreateMenu is one call of the entry point and the caller goes
    on with its first result; InsertMenuItem on a descriptor is one store of
    the structure size and one call of the entry point, on the stamped
    memory, and the caller goes on with whether the first result was non-zero,
    be it a success or a failure; InsertMenuItem on nil ends the run there
    and then. *)
Inductive Ending := Finished | Panics.

Inductive ClientRun {OS} (arch : GOARCH)
    (sys : Proc -> list Z -> (loc -> MenuItemInfo) -> OS -> SysRet OS) :
    Client -> (loc -> MenuItemInfo) -> OS ->
    list Event -> Ending -> (loc -> MenuItemInfo) -> OS -> Prop :=
| cr_stop mem o :
    ClientRun arch sys Stop mem o [] Finished mem o
| cr_create k mem o (r : SysRet OS) evs e mem' o' :
    r = sys procCreateMenu [] mem o ->
    ClientRun arch sys (k (r1 r) (bool_decide (r1 r ≠ 0)))
              (mem_after r) (os_after r) evs e mem' o' ->
    ClientRun arch sys (ThenCreateMenu k) mem o
              (EvCall procCreateMenu [] :: evs) e mem' o'
| cr_insert_nil hMenu item fByPosition k mem o :
    ClientRun arch sys (ThenInsertMenuItem hMenu item fByPosition Nil k) mem o
              [] Panics mem o
| cr_insert (hMenu item : Z) (fByPosition : bool) (l : loc) k mem o args
    (r : SysRet OS) evs e mem' o' :
    args = [uintptr arch hMenu; uintptr arch item;
            if fByPosition then 1 else 0; Z.pos l] ->
    r = sys procInsertMenuItem args
            (<[l := set_cbSize (Sizeof_MenuItemInfo arch) (mem l)]> mem) o ->
    ClientRun arch sys (k (bool_decide (r1 r ≠ 0)))
              (mem_after r) (os_after r) evs e mem' o' ->
    ClientRun arch sys (ThenInsertMenuItem hMenu item fByPosition (Ref l) k) mem o
              (EvStore l "cbSize" (Sizeof_MenuItemInfo arch)
               :: EvCall procInsertMenuItem args :: evs) e mem' o'.

(** An operating system whose entry points do not write to the descriptors
    they are pointed to. *)
Definition leaves_memory_alone {OS}
    (sys : Proc -> list Z -> (loc -> MenuItemInfo) -> OS -> SysRet OS) : Prop :=
  forall p args mem o, mem_after (sys p args mem o) = mem.

(** ** Laid-out fields *)

(** The fields of a declaration with the place [unsafe.Sizeof] gives them:
    offset, size and alignment. *)
Definition extents (w : Z) (fs : list FieldDecl) : list (Z * Z * Z) :=
  zip_with (fun f off => (snd off, Layout.Sizeof w (f_type f), Layout.Alignof w (f_type f)))
           fs (Layout.Offsetsof w fs).

(** The alignments the layout works with. *)
Definition is_alignment (r : Z) : Prop := r = 1 \/ r = 2 \/ r = 4 \/ r = 8.

(** Fields that follow one another from [lo] on without overlap, each at a
    multiple of its alignment, the last one ending at or before [hi]. *)
Fixpoint packed (lo : Z) (xs : list (Z * Z * Z)) (hi : Z) : Prop :=
  match xs with
  | [] => lo <= hi
  | (off, size, align) :: rest =>
      lo <= off /\ off mod align = 0 /\ 0 < size /\ packed (off + size) rest hi
  end.

(** * Properties *)

(** Closed decidable facts about the constant blocks, by evaluation. *)
Ltac by_decide :=
  lazymatch goal with
  | |- ¬ ?P => apply (bool_decide_eq_false_1 P); reflexivity
  | |- ?P => apply (bool_decide_eq_true_1 P); reflexivity
  end.

(** ** Machine integers and layout *)

Lemma PtrSize_cases a : PtrSize a = 4 \/ PtrSize a = 8.
Proof. destruct a; simpl; auto. Qed.

Lemma wrap_small bits z : 0 <= z < 2 ^ bits -> wrap bits z = z.
Proof. intros H. unfold wrap. now apply Z.mod_small. Qed.

Lemma uint32_small z : is_uint32 z -> uint32 z = z.
Proof. apply wrap_small. Qed.

Lemma uintptr_small a z : is_uintptr a z -> uintptr a z = z.
Proof. apply wrap_small. Qed.

Lemma uint32_fits_uintptr a z : is_uint32 z -> is_uintptr a z.
Proof.
  unfold is_uint32, is_uintptr. intros [H0 H1]. split; [exact H0|].
  destruct a; simpl PtrSize; simpl Z.mul; lia.
Qed.

Lemma uintptr_byPos a (b : bool) :
  uintptr a (if b then 1 else 0) = (if b then 1 else 0).
Proof. destruct a, b; reflexivity. Qed.

Lemma Sizeof_struct_32 : Layout.Sizeof_struct 4 MenuItemInfo_decl = 48.
Proof. reflexivity. Qed.

Lemma Sizeof_struct_64 : Layout.Sizeof_struct 8 MenuItemInfo_decl = 80.
Proof. reflexivity. Qed.

Lemma Sizeof_MenuItemInfo_cases a :
  (PtrSize a = 4 /\ Sizeof_MenuItemInfo a = 48) \/
  (PtrSize a = 8 /\ Sizeof_MenuItemInfo a = 80).
Proof. destruct a; [left|right|left|right]; split; reflexivity. Qed.

(** The size fits the 32-bit field: the conversion to uint32 loses nothing. *)
Lemma uint32_Sizeof_MenuItemInfo a :
  uint32 (Sizeof_MenuItemInfo a) = Sizeof_MenuItemInfo a.
Proof. destruct a; reflexivity. Qed.

(** No two fields overlap and none crosses the end of the structure. *)
Lemma Offsetsof_32 :
  Layout.Offsetsof 4 MenuItemInfo_decl =
  [ ("cbSize", 0); ("fMask", 4); ("fType", 8); ("fState", 12); ("wID", 16);
    ("hSubMenu", 20); ("hbmpChecked", 24); ("hbmpUnchecked", 28);
    ("dwItemData", 32); ("dwTypeData", 36); ("cch", 40); ("hbmpItem", 44) ]%string.
Proof. reflexivity. Qed.

Lemma Offsetsof_64 :
  Layout.Offsetsof 8 MenuItemInfo_decl =
  [ ("cbSize", 0); ("fMask", 4); ("fType", 8); ("fState", 12); ("wID", 16);
    ("hSubMenu", 24); ("hbmpChecked", 32); ("hbmpUnchecked", 40);
    ("dwItemData", 48); ("dwTypeData", 56); ("cch", 64); ("hbmpItem", 72) ]%string.
Proof. reflexivity. Qed.

(** ** Descriptors *)

Lemma cbSize_set_cbSize v mi : cbSize (set_cbSize v mi) = v.
Proof. reflexivity. Qed.

Lemma other_fields_set_cbSize v mi : other_fields (set_cbSize v mi) = other_fields mi.
Proof. reflexivity. Qed.

(** ** Running the two functions *)

Section Runs.

Variable arch : GOARCH.
Variable OS : Type.
Variable sys : Proc -> list Z -> (loc -> MenuItemInfo) -> OS -> SysRet OS.

Lemma CreateMenu_run (w : World OS) :
  CreateMenu sys w =
  let r := sys procCreateMenu [] (heap w) (os w) in
  Returned (r1 r, bool_decide (r1 r ≠ 0))
           {| heap := mem_after r; os := os_after r;
              trace := trace w ++ [EvCall procCreateMenu []] |}.
Proof. reflexivity. Qed.

Lemma InsertMenuItem_nil hMenu item fByPosition (w : World OS) :
  InsertMenuItem arch sys hMenu item fByPosition Nil w =
  Panicked NilPointerDereference w.
Proof. reflexivity. Qed.

Lemma InsertMenuItem_run hMenu item fByPosition l (w : World OS) :
  InsertMenuItem arch sys hMenu item fByPosition (Ref l) w =
  let size := uint32 (Sizeof_MenuItemInfo arch) in
  let args := [uintptr arch hMenu; uintptr arch item;
               uintptr arch (if fByPosition then 1 else 0); Z.pos l] in
  let r := sys procInsertMenuItem args
               (<[l := set_cbSize size (heap w l)]> (heap w)) (os w) in
  Returned (bool_decide (r1 r ≠ 0))
           {| heap := mem_after r; os := os_after r;
              trace := trace w ++ [EvStore l "cbSize" size;
                                   EvCall procInsertMenuItem args] |}.
Proof.
  unfold InsertMenuItem, mbind, M_bind, store_cbSize, Call, mret, M_ret.
  cbn [heap os trace uintptr_of_Pointer]. rewrite <- app_assoc. reflexivity.
Qed.

End Runs.

(** ** The claims about InsertMenuItem and CreateMenu *)

(** C1.  Every call of InsertMenuItem on a descriptor writes the descriptor's
    cbSize right before it dispatches to InsertMenuItemW: the binding does
    exactly these two things, in this order, and the entry point runs on a
    memory in which the descriptor already carries the stamp.  The value
    written is the size of the MenuItemInfo structure, computed from its
    declaration by the layout rules for the target: 48 bytes where a pointer
    takes 4, 80 bytes where it takes 8.  On a nil descriptor nothing is
    dispatched. *)
Theorem InsertMenuItem_stamps_size :
  forall (arch : GOARCH) (OS : Type)
         (sys : Proc -> list Z -> (loc -> MenuItemInfo) -> OS -> SysRet OS)
         (hMenu item : Z) (fByPosition : bool) (lpmi : Pointer) (w : World OS),
    let size := Sizeof_MenuItemInfo arch in
    let args := [uintptr arch hMenu; uintptr arch item;
                 uintptr arch (if fByPosition then 1 else 0);
                 uintptr_of_Pointer lpmi] in
    let out := InsertMenuItem arch sys hMenu item fByPosition lpmi w in
    trace (state_of out) =
      trace w ++ match lpmi with
                 | Nil => []
                 | Ref l => [EvStore l "cbSize" size; EvCall procInsertMenuItem args]
                 end
    /\ match lpmi with
       | Nil => True
       | Ref l =>
           exists mem,
             cbSize (mem l) = size /\
             let r := sys procInsertMenuItem args mem (os w) in
             heap (state_of out) = mem_after r /\ os (state_of out) = os_after r /\
             value_of out = Some (bool_decide (r1 r ≠ 0))
       end
    /\ size = Layout.Sizeof_struct (PtrSize arch) MenuItemInfo_decl
    /\ ((PtrSize arch = 4 /\ size = 48) \/ (PtrSize arch = 8 /\ size = 80))
    /\ Layout.Sizeof_struct 4 MenuItemInfo_decl = 48
    /\ Layout.Sizeof_struct 8 MenuItemInfo_decl = 80.
Proof.
  intros arch OS sys hMenu item fByPosition lpmi w size args out.
  pose proof (uint32_Sizeof_MenuItemInfo arch) as Hsize. fold size in Hsize.
  split; [|split; [|split; [|split; [|split]]]].
  - subst out. destruct lpmi as [|l].
    + rewrite InsertMenuItem_nil. cbn [state_of]. now rewrite app_nil_r.
    + rewrite InsertMenuItem_run. cbv zeta. fold size. rewrite Hsize.
      reflexivity.
  - subst out. destruct lpmi as [|l]; [exact I|].
    exists (<[l := set_cbSize size (heap w l)]> (heap w)). split.
    + now rewrite fn_lookup_insert.
    + rewrite InsertMenuItem_run. cbv zeta. fold size. rewrite Hsize.
      cbn [state_of value_of heap os]. auto.
  - reflexivity.
  - exact (Sizeof_MenuItemInfo_cases arch).
  - exact Sizeof_struct_32.
  - exact Sizeof_struct_64.
Qed.

(** C2.  CreateMenu always returns; the handle it returns is the first result
    of the CreateMenu entry point, unchanged, and the flag is true exactly
    when that handle is not zero. *)
Theorem CreateMenu_handle_and_flag :
  forall (OS : Type)
         (sys : Proc -> list Z -> (loc -> MenuItemInfo) -> OS -> SysRet OS)
         (w : World OS),
    let r := sys procCreateMenu [] (heap w) (os w) in
    exists ok : bool,
      value_of (CreateMenu sys w) = Some (r1 r, ok)
      /\ (ok = true <-> r1 r ≠ 0)
      /\ (r1 r = 0 -> ok = false)
      /\ trace (state_of (CreateMenu sys w)) = trace w ++ [EvCall procCreateMenu []].
Proof.
  intros OS sys w r. exists (bool_decide (r1 r ≠ 0)).
  rewrite CreateMenu_run. fold r. cbn [value_of state_of trace].
  split; [reflexivity|]. split; [apply bool_decide_eq_true|].
  split; [|reflexivity].
  intros H0. apply bool_decide_eq_false. intros Hne. now apply Hne.
Qed.

(** C3.  On a descriptor, InsertMenuItem returns true exactly when the first
    result of the InsertMenuItemW call it dispatched is not zero. *)
Theorem InsertMenuItem_flag :
  forall (arch : GOARCH) (OS : Type)
         (sys : Proc -> list Z -> (loc -> MenuItemInfo) -> OS -> SysRet OS)
         (hMenu item : Z) (fByPosition : bool) (l : loc) (w : World OS),
    let size := uint32 (Sizeof_MenuItemInfo arch) in
    let args := [uintptr arch hMenu; uintptr arch item;
                 uintptr arch (if fByPosition then 1 else 0); Z.pos l] in
    let r := sys procInsertMenuItem args
                 (<[l := set_cbSize size (heap w l)]> (heap w)) (os w) in
    exists ok : bool,
      value_of (InsertMenuItem arch sys hMenu item fByPosition (Ref l) w) = Some ok
      /\ (ok = true <-> r1 r ≠ 0)
      /\ (ok = false <-> r1 r = 0).
Proof.
  intros arch OS sys hMenu item fByPosition l w size args r.
  exists (bool_decide (r1 r ≠ 0)).
  rewrite InsertMenuItem_run. fold size args r. cbn [value_of].
  split; [reflexivity|]. split; [apply bool_decide_eq_true|].
  rewrite bool_decide_eq_false. split.
  - intros H. destruct (decide (r1 r = 0)) as [E|N]; [exact E|]. now destruct H.
  - intros E N. now apply N.
Qed.

(** C4.  The third argument InsertMenuItem hands to InsertMenuItemW is 1 when
    fByPosition is true and 0 when it is false.  The entry point is really
    called with it: whatever the operating system is, the result, the memory
    and the operating-system state after InsertMenuItem are those the entry
    point produces when run on the stamped memory with the arguments hMenu,
    item, that 1 or 0, and the address of the descriptor; the binding's trace
    shows the same call. *)
Theorem InsertMenuItem_byPosition_marshalled :
  forall (arch : GOARCH) (OS : Type)
         (sys : Proc -> list Z -> (loc -> MenuItemInfo) -> OS -> SysRet OS)
         (hMenu item : Z) (fByPosition : bool) (l : loc) (w : World OS),
    let byPos := if fByPosition then 1 else 0 in
    let size := uint32 (Sizeof_MenuItemInfo arch) in
    let args := [uintptr arch hMenu; uintptr arch item; byPos; Z.pos l] in
    let r := sys procInsertMenuItem args
                 (<[l := set_cbSize size (heap w l)]> (heap w)) (os w) in
    InsertMenuItem arch sys hMenu item fByPosition (Ref l) w =
      Returned (bool_decide (r1 r ≠ 0))
               {| heap := mem_after r; os := os_after r;
                  trace := trace w ++ [EvStore l "cbSize" size;
                                       EvCall procInsertMenuItem args] |}
    /\ ((fByPosition = true /\ byPos = 1) \/ (fByPosition = false /\ byPos = 0))
    /\ exists a0 a1 a3 before,
         trace (state_of (InsertMenuItem arch sys hMenu item fByPosition (Ref l) w)) =
           before ++ [EvCall procInsertMenuItem
                        [a0; a1; if fByPosition then 1 else 0; a3]]
         /\ a0 = uintptr arch hMenu /\ a1 = uintptr arch item /\ a3 = Z.pos l
         /\ before = trace w ++ [EvStore l "cbSize" size].
Proof.
  intros arch OS sys hMenu item fByPosition l w byPos size args r.
  assert (Hrun : InsertMenuItem arch sys hMenu item fByPosition (Ref l) w =
                 Returned (bool_decide (r1 r ≠ 0))
                   {| heap := mem_after r; os := os_after r;
                      trace := trace w ++ [EvStore l "cbSize" size;
                                           EvCall procInsertMenuItem args] |}).
  { rewrite InsertMenuItem_run. cbv zeta. subst r args size byPos.
    now rewrite uintptr_byPos. }
  split; [exact Hrun|]. split.
  - subst byPos. destruct fByPosition; auto.
  - exists (uintptr arch hMenu), (uintptr arch item), (Z.pos l),
      (trace w ++ [EvStore l "cbSize" size]).
    rewrite Hrun. cbn [state_of trace]. subst args byPos.
    rewrite <- app_assoc. auto.
Qed.

(** C4 seen from the other side: the recording operating system received
    exactly one call, InsertMenuItemW, with 1 for by-position and with 0 for
    by-command. *)
Example InsertMenuItem_byPosition_received :
  os (state_of (InsertMenuItem GOARCH_amd64 RecordingOS.sys 0x10000 3 true
                  (Ref 1%positive) RecordingOS.world))
    = [(procInsertMenuItem, [0x10000; 3; 1; 1])]
  /\ os (state_of (InsertMenuItem GOARCH_386 RecordingOS.sys 0x10000 3 false
                     (Ref 1%positive) RecordingOS.world))
    = [(procInsertMenuItem, [0x10000; 3; 0; 1])].
Proof. split; reflexivity. Qed.

(** C5.  The MenuItemInfo declaration has exactly twelve fields, in the order
    cbSize, fMask, fType, fState, wID, hSubMenu, hbmpChecked, hbmpUnchecked,
    dwItemData, dwTypeData, cch, hbmpItem; the first five and cch are 32 bits
    wide, the other six are as wide as a pointer, on every target. *)
Theorem MenuItemInfo_fields :
  length MenuItemInfo_decl = 12%nat
  /\ map f_name MenuItemInfo_decl =
       [ "cbSize"; "fMask"; "fType"; "fState"; "wID"; "hSubMenu"; "hbmpChecked";
         "hbmpUnchecked"; "dwItemData"; "dwTypeData"; "cch"; "hbmpItem" ]%string
  /\ map (fun f => Layout.width_of (f_type f)) MenuItemInfo_decl =
       [ Layout.Fixed 4; Layout.Fixed 4; Layout.Fixed 4; Layout.Fixed 4;
         Layout.Fixed 4; Layout.PointerWidth; Layout.PointerWidth;
         Layout.PointerWidth; Layout.PointerWidth; Layout.PointerWidth;
         Layout.Fixed 4; Layout.PointerWidth ]
  /\ forall arch : GOARCH,
       let p := PtrSize arch in
       map (fun f => Layout.Sizeof p (f_type f)) MenuItemInfo_decl =
       [4; 4; 4; 4; 4; p; p; p; p; p; 4; p].
Proof. repeat split. Qed.

(** The sample operating system answers the same first result whatever error
    code it is set up to report. *)
Lemma SampleOS_same_r1 cb e1 e2 : same_r1 (SampleOS.sys cb e1) (SampleOS.sys cb e2).
Proof.
  intros p args mem n. destruct p; unfold SampleOS.sys.
  - destruct (n <? SampleOS.limit); reflexivity.
  - destruct args as [|h [|a1 [|a2 [|[|l|l] [|a4 rest]]]]]; try reflexivity.
    destruct ((cbSize (mem l) =? cb) && (65536 <=? h) && (h <? 65536 + n));
      reflexivity.
Qed.

Lemma SampleOS_same_but_error cb e1 e2 :
  same_but_error (SampleOS.sys cb e1) (SampleOS.sys cb e2).
Proof.
  intros p args mem n. destruct p; unfold SampleOS.sys.
  - destruct (n <? SampleOS.limit); auto.
  - destruct args as [|h [|a1 [|a2 [|[|l|l] [|a4 rest]]]]]; auto.
    destruct ((cbSize (mem l) =? cb) && (65536 <=? h) && (h <? 65536 + n)); auto.
Qed.

(** C6.  What CreateMenu and InsertMenuItem give back depends on the first
    result of the entry point only: two operating systems whose calls have
    the same first result make both functions return the same values.  And
    nothing of the rest reaches the caller by another way: when the two
    systems differ in nothing but the second result and the error code of
    their calls, the two functions leave the same world altogether, return
    value, every descriptor in memory, operating-system state and trace.  The
    error value is dropped; a failure shows as false and as nothing else. *)
Theorem error_value_discarded :
  forall (arch : GOARCH) (OS : Type)
         (sysA sysB : Proc -> list Z -> (loc -> MenuItemInfo) -> OS -> SysRet OS),
    same_r1 sysA sysB ->
    forall w : World OS,
      (value_of (CreateMenu sysA w) = value_of (CreateMenu sysB w)
       /\ forall hMenu item fByPosition lpmi,
            value_of (InsertMenuItem arch sysA hMenu item fByPosition lpmi w) =
            value_of (InsertMenuItem arch sysB hMenu item fByPosition lpmi w))
      /\ (same_but_error sysA sysB ->
          CreateMenu sysA w = CreateMenu sysB w
          /\ forall hMenu item fByPosition lpmi,
               InsertMenuItem arch sysA hMenu item fByPosition lpmi w =
               InsertMenuItem arch sysB hMenu item fByPosition lpmi w).
Proof.
  intros arch OS sysA sysB Hsame w. split; [split|].
  - rewrite !CreateMenu_run. cbv zeta. cbn [value_of]. now rewrite Hsame.
  - intros hMenu item fByPosition [|l].
    + now rewrite !InsertMenuItem_nil.
    + rewrite !InsertMenuItem_run. cbv zeta. cbn [value_of]. now rewrite Hsame.
  - intros Hall. split.
    + rewrite !CreateMenu_run. cbv zeta.
      destruct (Hall procCreateMenu [] (heap w) (os w)) as (-> & -> & ->).
      reflexivity.
    + intros hMenu item fByPosition [|l].
      * now rewrite !InsertMenuItem_nil.
      * rewrite !InsertMenuItem_run. cbv zeta.
        match goal with |- context [sysA procInsertMenuItem ?a ?m ?o] =>
          destruct (Hall procInsertMenuItem a m o) as (-> & -> & ->) end.
        reflexivity.
Qed.

(** C6 on the sample operating system.  Out of menus, CreateMenu fails with
    error 5 on one system and 1400 on the other; InsertMenuItem into a menu
    that does not exist fails with the same two codes.  The caller gets
    (0, false) and false from both, and the two worlds left behind are the
    same: the descriptor, too, carries no trace of the code. *)
Lemma error_value_discarded_witness :
  let A := SampleOS.sys 80 5 in
  let B := SampleOS.sys 80 1400 in
  let w := SampleOS.world 2 in
  let stamped := <[1%positive := set_cbSize 80 SampleOS.item7]> (heap w) in
  lastErr (A procCreateMenu [] (heap w) (os w)) = 5
  /\ lastErr (B procCreateMenu [] (heap w) (os w)) = 1400
  /\ lastErr (A procInsertMenuItem [7; 0; 1; 1] stamped (os w)) = 5
  /\ lastErr (B procInsertMenuItem [7; 0; 1; 1] stamped (os w)) = 1400
  /\ value_of (CreateMenu A w) = Some (0, false)
  /\ value_of (CreateMenu A w) = value_of (CreateMenu B w)
  /\ value_of (InsertMenuItem GOARCH_amd64 A 7 0 true (Ref 1%positive) w) =
     value_of (InsertMenuItem GOARCH_amd64 B 7 0 true (Ref 1%positive) w)
  /\ CreateMenu A w = CreateMenu B w
  /\ InsertMenuItem GOARCH_amd64 A 7 0 true (Ref 1%positive) w =
     InsertMenuItem GOARCH_amd64 B 7 0 true (Ref 1%positive) w.
Proof.
  intros A B w stamped.
  pose proof (error_value_discarded GOARCH_amd64 Z A B (SampleOS_same_r1 80 5 1400) w)
    as [[Hc Hi] Hall].
  destruct (Hall (SampleOS_same_but_error 80 5 1400)) as [Hwc Hwi].
  split; [reflexivity|]. split; [reflexivity|].
  split; [reflexivity|]. split; [reflexivity|]. split; [reflexivity|].
  split; [exact Hc|]. split; [exact (Hi 7 0 true (Ref 1%positive))|].
  split; [exact Hwc|]. exact (Hwi 7 0 true (Ref 1%positive)).
Defined.

(** C7.  The only thing InsertMenuItem itself changes is the cbSize of the
    descriptor it is given.  Its run on a descriptor is the store to cbSize
    followed by the dispatch: after the store every other field of the
    descriptor, every other descriptor, and the operating system are as they
    were; the dispatch is handed the menu handle and the item number as the
    caller gave them; no second store is made.  If the entry point leaves
    memory alone, the memory after the call is the memory after the store. *)
Theorem InsertMenuItem_changes_only_cbSize :
  forall (arch : GOARCH) (OS : Type)
         (sys : Proc -> list Z -> (loc -> MenuItemInfo) -> OS -> SysRet OS)
         (hMenu item : Z) (fByPosition : bool) (l : loc) (w : World OS),
    let size := uint32 (Sizeof_MenuItemInfo arch) in
    let out := InsertMenuItem arch sys hMenu item fByPosition (Ref l) w in
    exists w1 : World OS,
      store_cbSize (Ref l) size w = Returned tt w1
      /\ cbSize (heap w1 l) = size
      /\ other_fields (heap w1 l) = other_fields (heap w l)
      /\ (forall l', l' ≠ l -> heap w1 l' = heap w l')
      /\ os w1 = os w
      /\ trace w1 = trace w ++ [EvStore l "cbSize" size]
      /\ (exists a0 a1 a2 a3,
            out = ('(ret, _, _) ← Call sys procInsertMenuItem [a0; a1; a2; a3];
                   mret (bool_decide (ret ≠ 0)) : M (World OS) bool) w1
            /\ a0 = uintptr arch hMenu /\ a1 = uintptr arch item
            /\ (is_uintptr arch hMenu -> a0 = hMenu)
            /\ (is_uint32 item -> a1 = item)
            /\ trace (state_of out) =
                 trace w1 ++ [EvCall procInsertMenuItem [a0; a1; a2; a3]])
      /\ ((forall args mem o, mem_after (sys procInsertMenuItem args mem o) = mem) ->
          heap (state_of out) = heap w1).
Proof.
  intros arch OS sys hMenu item fByPosition l w size out.
  eexists. split; [reflexivity|]. cbn [heap os trace].
  split; [now rewrite fn_lookup_insert|].
  split; [now rewrite fn_lookup_insert|].
  split; [intros l' Hne; now rewrite fn_lookup_insert_ne|].
  split; [reflexivity|]. split; [reflexivity|]. split.
  - exists (uintptr arch hMenu), (uintptr arch item),
      (uintptr arch (if fByPosition then 1 else 0)), (Z.pos l).
    split; [reflexivity|]. split; [reflexivity|]. split; [reflexivity|].
    split; [apply uintptr_small|].
    split; [intros Hi; now apply uintptr_small, uint32_fits_uintptr|].
    subst out. rewrite InsertMenuItem_run. cbv zeta. cbn [state_of trace].
    now rewrite <- app_assoc.
  - intros Hro. subst out. rewrite InsertMenuItem_run. cbv zeta.
    cbn [state_of heap]. apply Hro.
Qed.

(** C8, as the specification has it, fails: the block also exposes the
    maximize button for the popup, HBMMENU_POPUP_MAXIMIZE, which is none of
    the seven glyphs listed. *)
Lemma HBitmap_constants_beyond_spec : ~ exposes_exactly sentinels_in_spec.
Proof.
  intros H. destruct (H (Popup, MaximizeButton)) as [Hin _].
  assert (Hout : (Popup, MaximizeButton) ∉ sentinels_in_spec) by by_decide.
  apply Hout, Hin. by_decide.
Qed.

(** C8, amended.  The block holds ten constants with ten different values,
    1 to 11 without 4.  Each of the seven glyphs of the specification is
    among them in its plain variant; beyond those the block has exactly the
    disabled close and the disabled minimize button for the menu bar and the
    maximize button for the popup, so that the glyphs exposed are the seven
    listed and the popup's maximize button. *)
Theorem HBitmap_constants_exact :
  length HBitmap_constants = 10%nat
  /\ NoDup (map s_value HBitmap_constants)
  /\ (forall v : Z, v ∈ map s_value HBitmap_constants <-> (1 <= v <= 11 /\ v ≠ 4))
  /\ Forall (fun pg => pg ∈ map place_and_glyph
                               (filter (fun s => s_disabled s = false) HBitmap_constants))
            sentinels_in_spec
  /\ map s_name (beyond sentinels_in_spec) =
       [ "HBMMENU_MBAR_CLOSE_D"; "HBMMENU_MBAR_MINIMIZE_D";
         "HBMMENU_POPUP_MAXIMIZE" ]%string
  /\ exposes_exactly (sentinels_in_spec ++ [(Popup, MaximizeButton)]).
Proof.
  split; [reflexivity|].
  split; [by_decide|].
  split.
  { intros v. split.
    - intros Hv. apply list_elem_of_In in Hv. cbn in Hv.
      unfold HBMMENU_MBAR_CLOSE, HBMMENU_MBAR_CLOSE_D, HBMMENU_MBAR_MINIMIZE,
        HBMMENU_MBAR_MINIMIZE_D, HBMMENU_MBAR_RESTORE, HBMMENU_POPUP_CLOSE,
        HBMMENU_POPUP_MAXIMIZE, HBMMENU_POPUP_MINIMIZE, HBMMENU_POPUP_RESTORE,
        HBMMENU_SYSTEM in Hv.
      lia.
    - intros [Hr Hne]. apply list_elem_of_In. cbn.
      unfold HBMMENU_MBAR_CLOSE, HBMMENU_MBAR_CLOSE_D, HBMMENU_MBAR_MINIMIZE,
        HBMMENU_MBAR_MINIMIZE_D, HBMMENU_MBAR_RESTORE, HBMMENU_POPUP_CLOSE,
        HBMMENU_POPUP_MAXIMIZE, HBMMENU_POPUP_MINIMIZE, HBMMENU_POPUP_RESTORE,
        HBMMENU_SYSTEM.
      lia. }
  split.
  { by_decide. }
  split; [reflexivity|].
  intros [p g].
  rewrite <- (bool_decide_eq_true ((p, g) ∈ map place_and_glyph HBitmap_constants)).
  rewrite <- (bool_decide_eq_true ((p, g) ∈ sentinels_in_spec ++ [(Popup, MaximizeButton)])).
  destruct p, g; vm_compute; tauto.
Qed.

(** C9.  On a nil descriptor InsertMenuItem panics with a nil dereference
    where it stores cbSize, before anything is dispatched: the world is left
    as it was, with no call made.  It returns a value exactly when the
    descriptor is not nil. *)
Theorem InsertMenuItem_nil_panics :
  forall (arch : GOARCH) (OS : Type)
         (sys : Proc -> list Z -> (loc -> MenuItemInfo) -> OS -> SysRet OS)
         (hMenu item : Z) (fByPosition : bool) (w : World OS),
    InsertMenuItem arch sys hMenu item fByPosition Nil w =
      Panicked NilPointerDereference w
    /\ store_cbSize Nil (uint32 (Sizeof_MenuItemInfo arch)) w =
         Panicked NilPointerDereference w
    /\ trace (state_of (InsertMenuItem arch sys hMenu item fByPosition Nil w)) = trace w
    /\ forall lpmi : Pointer,
         is_Some (value_of (InsertMenuItem arch sys hMenu item fByPosition lpmi w))
         <-> lpmi ≠ Nil.
Proof.
  intros arch OS sys hMenu item fByPosition w.
  split; [reflexivity|]. split; [reflexivity|]. split; [reflexivity|].
  intros [|l]; split.
  - rewrite InsertMenuItem_nil. cbn [value_of]. intros [x Hx]. discriminate Hx.
  - intros Hne. now destruct Hne.
  - intros _. discriminate.
  - intros _. rewrite InsertMenuItem_run. cbv zeta. cbn [value_of]. eauto.
Qed.

(** C10.  The eight state-flag constants take five different values:
    MFS_DISABLED and MFS_GRAYED are both 3, and MFS_ENABLED, MFS_UNCHECKED and
    MFS_UNHILITE are all 0.  In a state word they cannot be told apart:
    setting or testing one of a pair is setting or testing the other, and
    setting a zero flag changes nothing. *)
Theorem StateFlag_five_values :
  length StateFlag_constants = 8%nat
  /\ remove_dups (map snd StateFlag_constants) = [8; 0x1000; 3; 0x80; 0]
  /\ length (remove_dups (map snd StateFlag_constants)) = 5%nat
  /\ MFS_DISABLED = 3 /\ MFS_GRAYED = 3
  /\ MFS_ENABLED = 0 /\ MFS_UNCHECKED = 0 /\ MFS_UNHILITE = 0
  /\ forall s : StateFlag,
       Z.lor s MFS_DISABLED = Z.lor s MFS_GRAYED
       /\ Z.land s MFS_DISABLED = Z.land s MFS_GRAYED
       /\ Z.lor s MFS_ENABLED = s /\ Z.lor s MFS_UNCHECKED = s
       /\ Z.lor s MFS_UNHILITE = s
       /\ Z.land s MFS_ENABLED = Z.land s MFS_UNCHECKED
       /\ Z.land s MFS_UNCHECKED = Z.land s MFS_UNHILITE.
Proof.
  do 8 (split; [reflexivity|]).
  intros s. unfold MFS_ENABLED, MFS_UNCHECKED, MFS_UNHILITE.
  rewrite Z.lor_0_r. repeat split.
Qed.

(** * Further properties of the binding *)

(** ** One descriptor, several calls *)

Lemma set_cbSize_set_cbSize v v' mi : set_cbSize v (set_cbSize v' mi) = set_cbSize v mi.
Proof. reflexivity. Qed.

Lemma restamp_heap (h : loc -> MenuItemInfo) l v v' :
  <[l := set_cbSize v (<[l := set_cbSize v' (h l)]> h l)]> (<[l := set_cbSize v' (h l)]> h)
  = <[l := set_cbSize v (h l)]> h.
Proof.
  apply functional_extensionality. intros l'.
  destruct (decide (l = l')) as [->|Hne].
  - now rewrite !fn_lookup_insert.
  - now rewrite !fn_lookup_insert_ne.
Qed.

Lemma SampleOS_leaves_memory_alone cb err : leaves_memory_alone (SampleOS.sys cb err).
Proof.
  intros p args mem n. destruct p; unfold SampleOS.sys.
  - destruct (n <? SampleOS.limit); reflexivity.
  - destruct args as [|h [|a1 [|a2 [|[|l|l] [|a4 rest]]]]]; try reflexivity.
    destruct ((cbSize (mem l) =? cb) && (65536 <=? h) && (h <? 65536 + n));
      reflexivity.
Qed.

(** X1.  Whatever the caller left in cbSize is overwritten before the call:
    InsertMenuItem behaves the same, result, memory, operating system and
    trace, on two worlds that differ only in the cbSize of the descriptor.
    The caller need not fill the field in. *)
Theorem InsertMenuItem_ignores_caller_cbSize :
  forall (arch : GOARCH) (OS : Type)
         (sys : Proc -> list Z -> (loc -> MenuItemInfo) -> OS -> SysRet OS)
         (hMenu item : Z) (fByPosition : bool) (l : loc) (w : World OS) (v : Z),
    InsertMenuItem arch sys hMenu item fByPosition (Ref l)
      {| heap := <[l := set_cbSize v (heap w l)]> (heap w);
         os := os w; trace := trace w |}
    = InsertMenuItem arch sys hMenu item fByPosition (Ref l) w.
Proof.
  intros. rewrite !InsertMenuItem_run. cbv zeta. cbn [heap os trace].
  now rewrite restamp_heap.
Qed.

(** X2.  A descriptor can be used again.  When the entry point leaves memory
    alone, a second InsertMenuItem on the same descriptor, for any menu, item
    and addressing mode, finds it stamped and leaves memory exactly as the
    first call left it; the fields the caller filled in are still the
    caller's. *)
Theorem InsertMenuItem_again_same_memory :
  forall (arch : GOARCH) (OS : Type)
         (sys : Proc -> list Z -> (loc -> MenuItemInfo) -> OS -> SysRet OS),
    leaves_memory_alone sys ->
    forall (h1 i1 : Z) (f1 : bool) (h2 i2 : Z) (f2 : bool) (l : loc) (w : World OS),
      let w1 := state_of (InsertMenuItem arch sys h1 i1 f1 (Ref l) w) in
      let w2 := state_of (InsertMenuItem arch sys h2 i2 f2 (Ref l) w1) in
      heap w2 = heap w1
      /\ cbSize (heap w1 l) = Sizeof_MenuItemInfo arch
      /\ other_fields (heap w2 l) = other_fields (heap w l).
Proof.
  intros arch OS sys Halone h1 i1 f1 h2 i2 f2 l w w1 w2.
  assert (H1 : heap w1 = <[l := set_cbSize (uint32 (Sizeof_MenuItemInfo arch)) (heap w l)]> (heap w)).
  { subst w1. rewrite InsertMenuItem_run. cbv zeta. cbn [state_of heap]. apply Halone. }
  assert (H2 : heap w2 = heap w1).
  { subst w2. rewrite InsertMenuItem_run. cbv zeta. cbn [state_of heap].
    rewrite Halone, H1. apply restamp_heap. }
  split; [exact H2|]. rewrite H2, H1, fn_lookup_insert.
  split; [apply uint32_Sizeof_MenuItemInfo | reflexivity].
Qed.

(** X2 on the sample operating system: the checked string item is inserted
    twice, by position and by command id. *)
Lemma InsertMenuItem_again_same_memory_witness :
  let sys := SampleOS.sys 80 5 in
  let w := SampleOS.world 1 in
  let w1 := state_of (InsertMenuItem GOARCH_amd64 sys 65536 0 true (Ref 1%positive) w) in
  let w2 := state_of (InsertMenuItem GOARCH_amd64 sys 65536 7 false (Ref 1%positive) w1) in
  heap w2 = heap w1
  /\ cbSize (heap w1 1%positive) = 80
  /\ other_fields (heap w2 1%positive) = other_fields SampleOS.item7.
Proof.
  intros sys w w1 w2.
  exact (InsertMenuItem_again_same_memory GOARCH_amd64 Z sys
           (SampleOS_leaves_memory_alone 80 5) 65536 0 true 65536 7 false 1%positive w).
Defined.

(** ** Callers *)

Section Callers.

Variable arch : GOARCH.
Variable OS : Type.
Variable sys : Proc -> list Z -> (loc -> MenuItemInfo) -> OS -> SysRet OS.

Lemma run_client_Stop (w : World OS) : run_client arch sys Stop w = Returned tt w.
Proof. reflexivity. Qed.

Lemma run_client_CreateMenu k (w : World OS) :
  run_client arch sys (ThenCreateMenu k) w =
  let r := sys procCreateMenu [] (heap w) (os w) in
  run_client arch sys (k (r1 r) (bool_decide (r1 r ≠ 0)))
    {| heap := mem_after r; os := os_after r;
       trace := trace w ++ [EvCall procCreateMenu []] |}.
Proof. reflexivity. Qed.

Lemma run_client_InsertMenuItem_nil hMenu item fByPosition k (w : World OS) :
  run_client arch sys (ThenInsertMenuItem hMenu item fByPosition Nil k) w =
  Panicked NilPointerDereference w.
Proof. reflexivity. Qed.

Lemma run_client_InsertMenuItem hMenu item fByPosition l k (w : World OS) :
  run_client arch sys (ThenInsertMenuItem hMenu item fByPosition (Ref l) k) w =
  let size := uint32 (Sizeof_MenuItemInfo arch) in
  let args := [uintptr arch hMenu; uintptr arch item;
               uintptr arch (if fByPosition then 1 else 0); Z.pos l] in
  let r := sys procInsertMenuItem args
               (<[l := set_cbSize size (heap w l)]> (heap w)) (os w) in
  run_client arch sys (k (bool_decide (r1 r ≠ 0)))
    {| heap := mem_after r; os := os_after r;
       trace := trace w ++ [EvStore l "cbSize" size;
                            EvCall procInsertMenuItem args] |}.
Proof.
  cbn [run_client]. unfold mbind at 1. unfold M_bind at 1.
  rewrite InsertMenuItem_run. reflexivity.
Qed.

End Callers.

Lemma BindingTrace_app arch tr1 tr2 :
  BindingTrace arch tr1 -> BindingTrace arch tr2 -> BindingTrace arch (tr1 ++ tr2).
Proof.
  induction 1 as [|tr Htr IH|l a0 a1 b tr Htr IH]; intros H2; cbn [app].
  - exact H2.
  - constructor. now apply IH.
  - constructor. now apply IH.
Qed.

Lemma ClientRun_deterministic {OS} arch
    (sys : Proc -> list Z -> (loc -> MenuItemInfo) -> OS -> SysRet OS)
    c mem o evs e mem' o' evs2 e2 mem2 o2 :
  ClientRun arch sys c mem o evs e mem' o' ->
  ClientRun arch sys c mem o evs2 e2 mem2 o2 ->
  evs = evs2 /\ e = e2 /\ mem' = mem2 /\ o' = o2.
Proof.
  intros H. revert evs2 e2 mem2 o2.
  induction H as [mem o|k mem o r evs e mem' o' Hr _ IH
                 |hMenu item f k mem o
                 |hMenu item f l k mem o args r evs e mem' o' Hargs Hr _ IH];
    intros evs2 e2 mem2 o2 H2; inversion H2; subst.
  - auto.
  - destruct (IH _ _ _ _ ltac:(eassumption)) as (-> & -> & -> & ->). auto.
  - auto.
  - destruct (IH _ _ _ _ ltac:(eassumption)) as (-> & -> & -> & ->). auto.
Qed.

Lemma ClientRun_BindingTrace {OS} arch
    (sys : Proc -> list Z -> (loc -> MenuItemInfo) -> OS -> SysRet OS)
    c mem o evs e mem' o' :
  ClientRun arch sys c mem o evs e mem' o' -> BindingTrace arch evs.
Proof.
  induction 1 as [| | |hMenu item f l k mem o args r evs e mem' o' Hargs Hr _ IH];
    try (constructor; assumption).
  subst args. now constructor.
Qed.

(** X3.  The binding does what the caller's calls say and nothing else.
    Whatever a caller does with the two functions, and whatever the operating
    system answers, the run is the one told call by call by [ClientRun]: each
    CreateMenu is one call of its entry point, each InsertMenuItem on a
    descriptor is one store of the structure size followed by one call of
    InsertMenuItemW on the stamped memory, also after a failure (no second
    try), and an InsertMenuItem on nil ends the run with nothing stored and
    nothing called.  The events are added to the trace in that order, the
    memory and operating-system state at the end are those of that run, the
    run panics exactly when that run does, and there is no other such run.
    In particular the trace is a sequence of CreateMenu calls and of
    stamp-then-call pairs on one descriptor. *)
Theorem run_client_trace :
  forall (arch : GOARCH) (OS : Type)
         (sys : Proc -> list Z -> (loc -> MenuItemInfo) -> OS -> SysRet OS)
         (c : Client) (w : World OS),
    let out := run_client arch sys c w in
    exists emitted e,
      ClientRun arch sys c (heap w) (os w) emitted e
                (heap (state_of out)) (os (state_of out))
      /\ trace (state_of out) = trace w ++ emitted
      /\ (e = Finished <-> value_of out = Some tt)
      /\ (e = Panics <-> value_of out = None)
      /\ (forall evs2 e2 mem2 o2,
            ClientRun arch sys c (heap w) (os w) evs2 e2 mem2 o2 ->
            evs2 = emitted /\ e2 = e
            /\ mem2 = heap (state_of out) /\ o2 = os (state_of out))
      /\ BindingTrace arch emitted.
Proof.
  intros arch OS sys c w out.
  assert (Hrun : exists emitted e,
             ClientRun arch sys c (heap w) (os w) emitted e
                       (heap (state_of out)) (os (state_of out))
             /\ trace (state_of out) = trace w ++ emitted
             /\ (e = Finished <-> value_of out = Some tt)
             /\ (e = Panics <-> value_of out = None)).
  { subst out. revert w.
    induction c as [|k IH|hMenu item fByPosition lpmi k IH]; intros w.
    - exists [], Finished. rewrite run_client_Stop, app_nil_r. cbn [state_of value_of].
      split; [constructor|]. split; [reflexivity|].
      split; split; intros H; (reflexivity || discriminate H).
    - rewrite run_client_CreateMenu. cbv zeta.
      match goal with |- context [run_client arch sys (k ?h ?b) ?w1] =>
        destruct (IH h b w1) as (em & e & Hcr & Htr & Hfin & Hpan) end.
      cbn [heap os trace] in Hcr, Htr.
      exists (EvCall procCreateMenu [] :: em), e.
      split; [econstructor; [reflexivity|exact Hcr]|].
      split; [rewrite Htr; now rewrite <- app_assoc|].
      split; assumption.
    - destruct lpmi as [|l].
      + exists [], Panics. rewrite run_client_InsertMenuItem_nil, app_nil_r.
        cbn [state_of value_of].
        split; [constructor|]. split; [reflexivity|].
        split; split; intros H; (reflexivity || discriminate H).
      + rewrite run_client_InsertMenuItem. cbv zeta.
        rewrite uint32_Sizeof_MenuItemInfo, uintptr_byPos.
        match goal with |- context [run_client arch sys (k ?b) ?w1] =>
          destruct (IH b w1) as (em & e & Hcr & Htr & Hfin & Hpan) end.
        cbn [heap os trace] in Hcr, Htr.
        eexists (_ :: _ :: em), e.
        split; [econstructor; [reflexivity|reflexivity|exact Hcr]|].
        split; [rewrite Htr; now rewrite <- app_assoc|].
        split; assumption. }
  destruct Hrun as (emitted & e & Hcr & Htr & Hfin & Hpan).
  exists emitted, e.
  split; [exact Hcr|]. split; [exact Htr|]. split; [exact Hfin|].
  split; [exact Hpan|]. split.
  - intros evs2 e2 mem2 o2 H2.
    destruct (ClientRun_deterministic _ _ _ _ _ _ _ _ _ _ _ _ _ H2 Hcr)
      as (-> & -> & -> & ->). auto.
  - exact (ClientRun_BindingTrace _ _ _ _ _ _ _ _ _ Hcr).
Qed.

(** X4.  The binding never writes anything but cbSize, whatever the caller
    does: when the entry points leave memory alone, after any run every
    descriptor has all its other fields as they were, and its cbSize either
    as it was or equal to the structure size. *)
Theorem run_client_frame :
  forall (arch : GOARCH) (OS : Type)
         (sys : Proc -> list Z -> (loc -> MenuItemInfo) -> OS -> SysRet OS),
    leaves_memory_alone sys ->
    forall (c : Client) (w : World OS) (l : loc),
      let w' := state_of (run_client arch sys c w) in
      other_fields (heap w' l) = other_fields (heap w l)
      /\ (cbSize (heap w' l) = cbSize (heap w l)
          \/ cbSize (heap w' l) = Sizeof_MenuItemInfo arch).
Proof.
  intros arch OS sys Halone c.
  induction c as [|k IH|hMenu item fByPosition lpmi k IH]; intros w l; cbv zeta.
  - rewrite run_client_Stop. cbn [state_of]. auto.
  - rewrite run_client_CreateMenu. cbv zeta. rewrite Halone.
    match goal with |- context [run_client arch sys (k ?h ?b) ?w1] =>
      exact (IH h b w1 l) end.
  - destruct lpmi as [|l0].
    + rewrite run_client_InsertMenuItem_nil. cbn [state_of]. auto.
    + rewrite run_client_InsertMenuItem. cbv zeta. rewrite Halone.
      rewrite uint32_Sizeof_MenuItemInfo.
      match goal with |- context [run_client arch sys (k ?b) ?w1] =>
        destruct (IH b w1 l) as [Hother Hsize]; cbn [heap] in Hother, Hsize end.
      destruct (decide (l0 = l)) as [->|Hne].
      * rewrite fn_lookup_insert in Hother, Hsize.
        rewrite other_fields_set_cbSize in Hother.
        rewrite cbSize_set_cbSize in Hsize.
        split; [exact Hother|]. right.
        destruct Hsize as [Hs|Hs]; exact Hs.
      * rewrite fn_lookup_insert_ne in Hother, Hsize by exact Hne.
        split; [exact Hother|exact Hsize].
Qed.

(** X4 on the sample operating system: a caller creates a menu, inserts the
    item if that worked, and inserts it once more by command id. *)
Lemma run_client_frame_witness :
  let c := ThenCreateMenu (fun hMenu ok =>
             if ok
             then ThenInsertMenuItem hMenu 0 true (Ref 1%positive) (fun _ =>
                  ThenInsertMenuItem hMenu 7 false (Ref 1%positive) (fun _ => Stop))
             else Stop) in
  let w' := state_of (run_client GOARCH_386 (SampleOS.sys 48 5) c (SampleOS.world 0)) in
  other_fields (heap w' 1%positive) = other_fields SampleOS.item7
  /\ (cbSize (heap w' 1%positive) = 0 \/ cbSize (heap w' 1%positive) = 48).
Proof.
  intros c w'.
  exact (run_client_frame GOARCH_386 Z (SampleOS.sys 48 5)
           (SampleOS_leaves_memory_alone 48 5) c (SampleOS.world 0) 1%positive).
Defined.

(** X5.  The handle CreateMenu returns reaches InsertMenuItemW as it is, and
    so does the item number.  For a caller that creates a menu and inserts
    into it, the run ends in the world that the InsertMenuItemW entry point
    leaves when it is called with the very value the CreateMenu entry point
    returned, the item unchanged, 1 or 0, and the address of the descriptor,
    on the memory CreateMenu left with the descriptor stamped; the trace
    shows the same two calls.  (What an entry point returns is a uintptr, and
    item is a uint32.) *)
Theorem created_handle_reaches_InsertMenuItem :
  forall (arch : GOARCH) (OS : Type)
         (sys : Proc -> list Z -> (loc -> MenuItemInfo) -> OS -> SysRet OS)
         (item : Z) (fByPosition : bool) (l : loc) (w : World OS),
    let r0 := sys procCreateMenu [] (heap w) (os w) in
    let created := r1 r0 in
    let c := ThenCreateMenu (fun hMenu _ =>
               ThenInsertMenuItem hMenu item fByPosition (Ref l) (fun _ => Stop)) in
    is_uintptr arch created ->
    is_uint32 item ->
    let size := Sizeof_MenuItemInfo arch in
    let args := [created; item; if fByPosition then 1 else 0; Z.pos l] in
    let r := sys procInsertMenuItem args
                 (<[l := set_cbSize size (mem_after r0 l)]> (mem_after r0))
                 (os_after r0) in
    run_client arch sys c w =
      Returned tt
        {| heap := mem_after r; os := os_after r;
           trace := trace w ++ [EvCall procCreateMenu [];
                                EvStore l "cbSize" size;
                                EvCall procInsertMenuItem args] |}.
Proof.
  intros arch OS sys item fByPosition l w r0 created c Hh Hi size args r.
  subst c. rewrite run_client_CreateMenu. cbv zeta.
  rewrite run_client_InsertMenuItem. cbv zeta.
  rewrite run_client_Stop. cbn [heap os trace].
  fold r0. fold created.
  rewrite uint32_Sizeof_MenuItemInfo, uintptr_byPos.
  rewrite (uintptr_small arch created Hh).
  rewrite (uintptr_small arch item (uint32_fits_uintptr arch item Hi)).
  fold size. fold args. fold r. now rewrite <- app_assoc.
Qed.

(** X5 on the recording operating system, which hands out 0x10000: what it
    received is CreateMenu without arguments, then InsertMenuItemW with that
    handle, item 3, 1 and the address of the descriptor; by then the
    descriptor carried the size. *)
Lemma created_handle_reaches_InsertMenuItem_witness :
  let c := ThenCreateMenu (fun hMenu _ =>
             ThenInsertMenuItem hMenu 3 true (Ref 1%positive) (fun _ => Stop)) in
  let out := run_client GOARCH_amd64 RecordingOS.sys c RecordingOS.world in
  os (state_of out) =
    [(procCreateMenu, []); (procInsertMenuItem, [0x10000; 3; 1; 1])]
  /\ cbSize (heap (state_of out) 1%positive) = 80
  /\ trace (state_of out) =
       [EvCall procCreateMenu []; EvStore 1%positive "cbSize" 80;
        EvCall procInsertMenuItem [0x10000; 3; 1; 1]].
Proof.
  intros c out.
  assert (Hh : is_uintptr GOARCH_amd64
                 (r1 (RecordingOS.sys procCreateMenu [] (heap RecordingOS.world)
                        (os RecordingOS.world))))
    by (unfold is_uintptr; cbn; lia).
  assert (Hi : is_uint32 3) by (unfold is_uint32; lia).
  pose proof (created_handle_reaches_InsertMenuItem GOARCH_amd64 _ RecordingOS.sys
                3 true 1%positive RecordingOS.world Hh Hi) as Hrun.
  cbv zeta in Hrun. subst out c. rewrite Hrun.
  split; [reflexivity|]. split; reflexivity.
Defined.

(** ** Flag words *)

Lemma flag_word_cons g chosen : flag_word (g :: chosen) = Z.lor g (flag_word chosen).
Proof. reflexivity. Qed.

Lemma has_flag_true word flag : has_flag word flag = true <-> Z.land word flag ≠ 0.
Proof.
  unfold has_flag. rewrite negb_true_iff, Z.eqb_neq. reflexivity.
Qed.

(** In a word built from flags that share no bit, a non-zero flag is found
    exactly when it was put in. *)
Lemma flag_word_round_trip (flags chosen : list Z) (f : Z) :
  disjoint_bits flags -> chosen ⊆ flags -> f ∈ flags -> f ≠ 0 ->
  has_flag (flag_word chosen) f = true <-> f ∈ chosen.
Proof.
  intros Hdis Hsub Hf Hnz. rewrite has_flag_true.
  induction chosen as [|g chosen IH].
  - cbn. rewrite Z.land_0_l. split; [intros H; now destruct H|].
    intros H. now apply not_elem_of_nil in H.
  - assert (Hg : g ∈ flags) by (apply Hsub; left).
    assert (Hrest : chosen ⊆ flags) by (intros x Hx; apply Hsub; now right).
    specialize (IH Hrest).
    unfold disjoint_bits in Hdis. rewrite Forall_forall in Hdis.
    specialize (Hdis f Hf). rewrite Forall_forall in Hdis. specialize (Hdis g Hg).
    rewrite flag_word_cons, Z.land_lor_distr_l, Hdis, elem_of_cons.
    destruct (decide (g = f)) as [->|Hne].
    + split; [intros _; now left|]. intros _ H0.
      apply Z.lor_eq_0_iff in H0. now destruct H0.
    + rewrite Z.lor_0_l, IH. split; [intros H; now right|].
      intros [->|H]; [now destruct Hne | exact H].
Qed.

Lemma subseteq_by_Forall (l1 l2 : list Z) : Forall (fun x => x ∈ l2) l1 -> l1 ⊆ l2.
Proof. intros H x Hx. rewrite Forall_forall in H. now apply H. Qed.

(** X6.  The nine mask flags share no bit, so a mask built by or-ing some of
    them tells exactly which ones were chosen: testing the mask for a flag
    with [&] succeeds if and only if that flag was put in.  Together they
    fill the low nine bits. *)
Theorem MaskFlag_round_trip :
  forall (chosen : list MaskFlag) (f : MaskFlag),
    chosen ⊆ map snd MaskFlag_constants ->
    f ∈ map snd MaskFlag_constants ->
    (has_flag (flag_word chosen) f = true <-> f ∈ chosen)
    /\ is_uint32 (flag_word chosen)
    /\ Z.land (flag_word chosen) (flag_word (map snd MaskFlag_constants)) = flag_word chosen
    /\ flag_word (map snd MaskFlag_constants) = 0x1FF.
Proof.
  intros chosen f Hsub Hf.
  assert (Hdis : disjoint_bits (map snd MaskFlag_constants)) by by_decide.
  assert (Hnz : Forall (fun g => g ≠ 0) (map snd MaskFlag_constants)) by by_decide.
  split.
  { apply (flag_word_round_trip (map snd MaskFlag_constants)); try assumption.
    rewrite Forall_forall in Hnz. now apply Hnz. }
  assert (Hall : flag_word (map snd MaskFlag_constants) = 0x1FF) by reflexivity.
  assert (Hlow : Forall (fun g => Z.land g 0x1FF = g) (map snd MaskFlag_constants))
    by by_decide.
  rewrite Forall_forall in Hlow.
  assert (Hin : Z.land (flag_word chosen) 0x1FF = flag_word chosen).
  { clear f Hf. induction chosen as [|g chosen IH]; [reflexivity|].
    rewrite flag_word_cons, Z.land_lor_distr_l, IH
      by (intros x Hx; apply Hsub; now right).
    f_equal. apply Hlow, Hsub. left. }
  split; [|split; [now rewrite Hall | exact Hall]].
  unfold is_uint32. rewrite <- Hin. change 511 with (Z.ones 9).
  rewrite Z.land_ones by lia.
  pose proof (Z.mod_pos_bound (flag_word chosen) (2 ^ 9) ltac:(lia)). lia.
Qed.

(** X6 for the mask of a string item with an id and a state: the string flag
    is found in it, the submenu flag is not. *)
Lemma MaskFlag_round_trip_witness :
  let chosen := [MIIM_ID; MIIM_STRING; MIIM_STATE] in
  ((has_flag (flag_word chosen) MIIM_SUBMENU = true <-> MIIM_SUBMENU ∈ chosen)
   /\ is_uint32 (flag_word chosen)
   /\ Z.land (flag_word chosen) (flag_word (map snd MaskFlag_constants)) = flag_word chosen
   /\ flag_word (map snd MaskFlag_constants) = 0x1FF)
  /\ has_flag (flag_word chosen) MIIM_STRING = true
  /\ has_flag (flag_word chosen) MIIM_SUBMENU = false.
Proof.
  intros chosen. split; [|split; reflexivity].
  apply (MaskFlag_round_trip chosen MIIM_SUBMENU).
  - apply subseteq_by_Forall. by_decide.
  - by_decide.
Defined.

(** X7.  The seven non-zero type flags share no bit, so a type word built by
    or-ing type flags shows exactly the non-zero ones that were chosen.
    MFT_STRING is 0: or-ing it in changes nothing and no test with [&] ever
    finds it, so a string item is one whose type word has neither MFT_BITMAP
    nor MFT_SEPARATOR, not one that carries a string flag. *)
Theorem TypeFlag_round_trip :
  forall (chosen : list TypeFlag) (f : TypeFlag),
    chosen ⊆ map snd TypeFlag_constants ->
    f ∈ map snd TypeFlag_constants ->
    (has_flag (flag_word chosen) f = true <-> f ∈ chosen /\ f ≠ MFT_STRING)
    /\ has_flag (flag_word chosen) MFT_STRING = false
    /\ flag_word (MFT_STRING :: chosen) = flag_word chosen.
Proof.
  intros chosen f Hsub Hf.
  assert (Hdis : disjoint_bits (map snd TypeFlag_constants)) by by_decide.
  split; [|split].
  - destruct (decide (f = MFT_STRING)) as [->|Hnz].
    + unfold has_flag, MFT_STRING. rewrite Z.land_0_r. cbn.
      split; [discriminate|]. intros [_ H]. now destruct H.
    + rewrite (flag_word_round_trip (map snd TypeFlag_constants) chosen f Hdis Hsub Hf Hnz).
      split; [intros H; now split | intros [H _]; exact H].
  - unfold has_flag, MFT_STRING. now rewrite Z.land_0_r.
  - reflexivity.
Qed.

(** X7 for an owner-drawn radio item: MFT_OWNERDRAW is found, MFT_SEPARATOR is
    not, and MFT_STRING is not found although it was or-ed in. *)
Lemma TypeFlag_round_trip_witness :
  let chosen := [MFT_STRING; MFT_OWNERDRAW; MFT_RADIOCHECK] in
  ((has_flag (flag_word chosen) MFT_SEPARATOR = true
    <-> MFT_SEPARATOR ∈ chosen /\ MFT_SEPARATOR ≠ MFT_STRING)
   /\ has_flag (flag_word chosen) MFT_STRING = false
   /\ flag_word (MFT_STRING :: chosen) = flag_word chosen)
  /\ has_flag (flag_word chosen) MFT_OWNERDRAW = true
  /\ has_flag (flag_word chosen) MFT_SEPARATOR = false.
Proof.
  intros chosen. split; [|split; reflexivity].
  apply (TypeFlag_round_trip chosen MFT_SEPARATOR).
  - apply subseteq_by_Forall. by_decide.
  - by_decide.
Defined.

(** ** The layout behind the size stamp *)

Lemma RoundUp_pow2 o k :
  0 <= k -> Layout.RoundUp o (2 ^ k) = (o + 2 ^ k - 1) / 2 ^ k * 2 ^ k.
Proof.
  intros Hk. unfold Layout.RoundUp.
  replace (2 ^ k - 1) with (Z.ones k) by (rewrite Z.ones_equiv; lia).
  now rewrite Z.ldiff_ones_r, Z.shiftr_div_pow2, Z.shiftl_mul_pow2 by lia.
Qed.

Lemma RoundUp_spec o r :
  is_alignment r ->
  o <= Layout.RoundUp o r < o + r /\ Layout.RoundUp o r mod r = 0.
Proof.
  intros Hr.
  assert (Hk : exists k, 0 <= k /\ r = 2 ^ k).
  { destruct Hr as [-> | [-> | [-> | ->]]];
      [exists 0|exists 1|exists 2|exists 3]; split; (lia || reflexivity). }
  destruct Hk as (k & Hk & ->).
  assert (Hpos : 0 < 2 ^ k) by (apply Z.pow_pos_nonneg; lia).
  rewrite RoundUp_pow2 by exact Hk.
  pose proof (Z.div_mod (o + 2 ^ k - 1) (2 ^ k) ltac:(lia)) as Hdm.
  pose proof (Z.mod_pos_bound (o + 2 ^ k - 1) (2 ^ k) Hpos) as Hb.
  split; [nia|]. apply Z.mod_mul. lia.
Qed.

Lemma width_of_cases t :
  Layout.width_of t = Layout.Fixed 2 \/ Layout.width_of t = Layout.Fixed 4 \/
  Layout.width_of t = Layout.Fixed 8 \/ Layout.width_of t = Layout.PointerWidth.
Proof. induction t; cbn; auto. Qed.

Lemma Sizeof_cases w t :
  w = 4 \/ w = 8 ->
  Layout.Sizeof w t = 2 \/ Layout.Sizeof w t = 4 \/ Layout.Sizeof w t = 8.
Proof.
  intros Hw. unfold Layout.Sizeof.
  destruct (width_of_cases t) as [-> | [-> | [-> | ->]]]; cbn; lia.
Qed.

Lemma Alignof_is_alignment w t : w = 4 \/ w = 8 -> is_alignment (Layout.Alignof w t).
Proof.
  intros Hw. unfold Layout.Alignof, is_alignment.
  destruct (Sizeof_cases w t Hw) as [-> | [-> | ->]]; lia.
Qed.

Lemma max_align_from w fs m :
  w = 4 \/ w = 8 -> is_alignment m ->
  is_alignment (fold_left (fun m f => Z.max m (Layout.Alignof w (f_type f))) fs m).
Proof.
  intros Hw. revert m. induction fs as [|f fs IH]; intros m Hm; cbn [fold_left].
  - exact Hm.
  - apply IH. pose proof (Alignof_is_alignment w (f_type f) Hw) as Ha.
    unfold is_alignment in *. lia.
Qed.

Lemma packed_weaken lo xs hi hi' : packed lo xs hi -> hi <= hi' -> packed lo xs hi'.
Proof.
  revert lo. induction xs as [|[[off size] align] xs IH]; intros lo H Hle; cbn in *.
  - lia.
  - destruct H as (H1 & H2 & H3 & H4). repeat split; try assumption. now apply IH.
Qed.

Lemma place_fields_packed w fs o :
  w = 4 \/ w = 8 ->
  packed o
    (zip_with (fun f off => (snd off, Layout.Sizeof w (f_type f), Layout.Alignof w (f_type f)))
              fs (fst (Layout.place_fields w fs o)))
    (snd (Layout.place_fields w fs o))
  /\ length (fst (Layout.place_fields w fs o)) = length fs
  /\ map fst (fst (Layout.place_fields w fs o)) = map f_name fs.
Proof.
  intros Hw. revert o. induction fs as [|f fs IH]; intros o.
  - cbn. repeat split. lia.
  - cbn [Layout.place_fields].
    set (at_ := Layout.RoundUp o (Layout.Alignof w (f_type f))).
    specialize (IH (at_ + Layout.Sizeof w (f_type f))).
    destruct (Layout.place_fields w fs (at_ + Layout.Sizeof w (f_type f))) as [offs e].
    cbn [fst snd zip_with packed length map] in *.
    destruct IH as (IH1 & IH2 & IH3).
    pose proof (RoundUp_spec o _ (Alignof_is_alignment w (f_type f) Hw)) as [Hr1 Hr2].
    fold at_ in Hr1, Hr2.
    pose proof (Sizeof_cases w (f_type f) Hw) as Hs.
    split; [|split].
    + split; [lia|]. split; [exact Hr2|]. split; [lia|exact IH1].
    + now rewrite IH2.
    + now rewrite IH3.
Qed.

(** X8.  The size written to cbSize covers the whole descriptor.  On every
    target and for any declaration over the field types of this package, the
    layout that yields the size puts the fields one after another in
    declaration order, each at a multiple of its alignment, none overlapping
    the next, and all of them ending at or before the size; the size is a
    multiple of the largest alignment and leaves less than that much padding
    at the end.  For MenuItemInfo: cbSize itself sits at offset 0, where the
    operating system looks for it, and the twelve fields lie within the
    stamped size. *)
Theorem Sizeof_covers_fields :
  forall (arch : GOARCH),
    let w := PtrSize arch in
    (forall fs : list FieldDecl,
        packed 0 (extents w fs) (Layout.Sizeof_struct w fs)
        /\ map fst (Layout.Offsetsof w fs) = map f_name fs
        /\ Layout.Sizeof_struct w fs mod Layout.max_align w fs = 0
        /\ Layout.Sizeof_struct w fs
             < snd (Layout.place_fields w fs 0) + Layout.max_align w fs)
    /\ packed 0 (extents w MenuItemInfo_decl) (Sizeof_MenuItemInfo arch)
    /\ head (Layout.Offsetsof w MenuItemInfo_decl) = Some ("cbSize"%string, 0).
Proof.
  intros arch w.
  assert (Hw : w = 4 \/ w = 8) by apply PtrSize_cases.
  assert (Hgen : forall fs : list FieldDecl,
             packed 0 (extents w fs) (Layout.Sizeof_struct w fs)
             /\ map fst (Layout.Offsetsof w fs) = map f_name fs
             /\ Layout.Sizeof_struct w fs mod Layout.max_align w fs = 0
             /\ Layout.Sizeof_struct w fs
                  < snd (Layout.place_fields w fs 0) + Layout.max_align w fs).
  { intros fs.
    destruct (place_fields_packed w fs 0 Hw) as (Hp & _ & Hn).
    assert (Hm : is_alignment (Layout.max_align w fs))
      by (apply max_align_from; [exact Hw | now left]).
    destruct (RoundUp_spec (snd (Layout.place_fields w fs 0)) _ Hm) as [Hr1 Hr2].
    unfold Layout.Sizeof_struct, extents, Layout.Offsetsof.
    split; [|split; [exact Hn|split; [exact Hr2|lia]]].
    eapply packed_weaken; [exact Hp|lia]. }
  split; [exact Hgen|]. split.
  - exact (proj1 (Hgen MenuItemInfo_decl)).
  - subst w. destruct arch; reflexivity.
Qed.
